(** * mcp_server.py: the [search] and [fetch] tools of the sample MCP server

    A shallow embedding of [src/mcp_server.py].  Python strings are
    sequences of Unicode code points, dictionaries are finite maps, the
    module logger is a piece of state threaded through every call and a
    raised exception is an outcome of the call. *)

From Stdlib Require Import ZArith String Ascii List Lia.
From Stdlib Require Import Decimal DecimalFacts DecimalString DecimalPos
  DecimalZ.
From stdpp Require Import gmap strings list fin_maps.

Local Open Scope Z_scope.

(** ** Python strings *)

(** A [str] is a sequence of code points. *)
Abbreviation codepoint := N (only parsing).
Abbreviation pystr := (list N) (only parsing).

(** String literals of the source, all of them ASCII. *)
Definition lit (s : string) : pystr :=
  map N_of_ascii (list_ascii_of_string s).

(** [Py_UNICODE_ISSPACE]: the code points [str.strip()] removes and
    [str.isspace()] accepts. *)
Definition isspace (c : codepoint) : bool :=
  ((9 <=? c) && (c <=? 13))%N
  || ((28 <=? c) && (c <=? 32))%N
  || (c =? 133)%N || (c =? 160)%N || (c =? 5760)%N
  || ((8192 <=? c) && (c <=? 8202))%N
  || (c =? 8232)%N || (c =? 8233)%N || (c =? 8239)%N
  || (c =? 8287)%N || (c =? 12288)%N.

(** [s.lstrip()], [s.rstrip()] and [s.strip()] without argument. *)
Fixpoint lstrip (s : pystr) : pystr :=
  match s with
  | c :: s' => if isspace c then lstrip s' else s
  | [] => []
  end.

Definition rstrip (s : pystr) : pystr := rev (lstrip (rev s)).

Definition strip (s : pystr) : pystr := rstrip (lstrip s).

(** Truth value of a string: only the empty string is falsy. *)
Definition truthy (s : pystr) : bool :=
  match s with [] => false | _ :: _ => true end.

(** [str(n)] for an [int], as an f-string renders it: decimal digits, a
    leading minus sign for a negative number, no padding. *)
Definition str_int (n : Z) : pystr :=
  lit (NilZero.string_of_int (Z.to_int n)).

(** ** Values, exceptions and the logger *)

(** A search hit is a [dict] from field name to string. *)
Abbreviation record := (gmap pystr pystr) (only parsing).

(** The values of the [dict] that [fetch] returns: a string, or the
    nested [metadata] dictionary. *)
Inductive pyval : Type :=
  | PStr (s : pystr)
  | PDict (d : record).

(** The only exception the module raises itself. *)
Inductive exn : Type :=
  | ValueError (msg : pystr).

Inductive outcome (A : Type) : Type :=
  | Return (a : A)
  | Raise (e : exn).
Arguments Return {A} a.
Arguments Raise {A} e.

(** The records the module logger has emitted so far, oldest first.  The
    logger is configured at level INFO, so [logger.info] always emits. *)
Abbreviation log := (list pystr) (only parsing).

(** A tool body: it reads and extends the log and either returns or
    raises. *)
Definition tool (A : Type) : Type := log -> outcome A * log.

Definition ret {A} (a : A) : tool A := fun l => (Return a, l).

Definition raise {A} (e : exn) : tool A := fun l => (Raise e, l).

Definition bind {A B} (m : tool A) (k : A -> tool B) : tool B :=
  fun l =>
    match m l with
    | (Return a, l') => k a l'
    | (Raise e, l') => (Raise e, l')
    end.

Definition logger_info (msg : pystr) : tool unit :=
  fun l => (Return tt, l ++ [msg]).

Declare Scope tool_scope.
Delimit Scope tool_scope with tool.
Notation "m ;; k" := (bind m (fun _ => k))
  (at level 100, k at level 200, right associativity) : tool_scope.

(** The response of a call and the log it leaves. *)
Definition response {A} (r : outcome A * log) : outcome A := fst r.
Definition log_after {A} (r : outcome A * log) : log := snd r.

(** ** The two tools *)

Section Server.

(** The interpreter's built-in [hash] on strings.  CPython salts it once
    per process, so it is one fixed function for the life of a server. *)
Variable hash : pystr -> Z.

(** [str.title()], which is decided by the interpreter's Unicode
    tables. *)
Variable title : pystr -> pystr.

Definition search (query : pystr)
  : tool (gmap pystr (list record)) :=
  if negb (truthy query) || negb (truthy (strip query)) then
    ret {[ lit "results" := [] ]}
  else (
    let results : list record := [] in
    let mockup_id := lit "mock@@@" ++ str_int (hash query mod 10000) in
    let result : record :=
      list_to_map
        [ (lit "id", mockup_id);
          (lit "title", lit "News Article on " ++ title query);
          (lit "text", lit "Full text about the topic: " ++ query);
          (lit "url", lit "https://mockup-url.org/" ++ mockup_id) ] in
    let results := results ++ [result] in
    logger_info (lit "search returned "
                 ++ str_int (Z.of_nat (length results))
                 ++ lit " results") ;;
    ret {[ lit "results" := results ]})%tool.

Definition fetch (id : pystr) : tool (gmap pystr pyval) :=
  if negb (truthy id) then
    raise (ValueError (lit "Document ID is required"))
  else (
    logger_info (lit "Fetching content for file ID: " ++ id) ;;
    let result : gmap pystr pyval :=
      list_to_map
        [ (lit "id", PStr id);
          (lit "title", PStr (lit "Retrieved Document"));
          (lit "text", PStr (lit "Full document content for ID: " ++ id));
          (lit "url",
           PStr (lit "https://platform.openai.com/storage/files/" ++ id));
          (lit "metadata",
           PDict (list_to_map
                    [ (lit "source", lit "Mockup Press");
                      (lit "retrieved_by", lit "Somebody") ])) ] in
    logger_info (lit "Fetched file: " ++ id) ;;
    ret result)%tool.

End Server.

(** ** The entry point *)

(** What the framework may throw while the server is built or runs:
    [KeyboardInterrupt], an instance of [Exception] (carried with what
    [str(e)] gives), or another [BaseException] such as [SystemExit]. *)
Inductive thrown : Type :=
  | KeyboardInterrupt
  | Exception (message : pystr)
  | BaseException (message : pystr).

(** A step of the script: it extends the log and ends normally or by
    throwing. *)
Definition script (A : Type) : Type := log -> (A + thrown) * log.

Section Main.

(** The server object of the framework. *)
Variable Server : Type.

(** [create_server()], as far as the script observes it. *)
Variable create_server : script Server.

(** [server.run(transport=..., host=..., port=...)]: it serves until it
    returns or throws. *)
Variable run : Server -> pystr -> pystr -> Z -> script unit.

(** The body of [if __name__ == "__main__":]. *)
Definition main : script unit :=
  fun l =>
    match create_server l with
    | (inr t, l1) => (inr t, l1)
    | (inl server, l1) =>
        let protocal := lit "http" in
        let host := lit "0.0.0.0" in
        let port := 8000 in
        let l2 :=
          l1 ++ [lit "Starting MCP server on " ++ host ++ lit ":"
                 ++ str_int port ++ lit " with " ++ protocal
                 ++ lit " transport"] in
        match run server protocal host port l2 with
        | (inl tt, l3) => (inl tt, l3)
        | (inr KeyboardInterrupt, l3) =>
            (inl tt, l3 ++ [lit "Server stopped by user"])
        | (inr (Exception e), l3) =>
            (inr (Exception e), l3 ++ [lit "Server error: " ++ e])
        | (inr (BaseException e), l3) => (inr (BaseException e), l3)
        end
    end.

End Main.

(** ** A concrete interpreter

    Any pair of functions can stand for [hash] and [str.title]; the two
    below let the tools run on concrete queries. *)

(** A signed 64-bit result, as [Py_hash_t] holds it. *)
Definition wrap64 (x : Z) : Z := (x + 2 ^ 63) mod 2 ^ 64 - 2 ^ 63.

(** A salted multiplicative string hash with 64-bit wrap-around. *)
Definition salted_hash (salt : Z) (s : pystr) : Z :=
  fold_left (fun x c => wrap64 (Z.lxor (1000003 * x) (Z.of_N c))) s
            (wrap64 salt).

Definition is_upper (c : codepoint) : bool := ((65 <=? c) && (c <=? 90))%N.
Definition is_lower (c : codepoint) : bool := ((97 <=? c) && (c <=? 122))%N.

(** [str.title()] on ASCII text: a letter that follows a letter is
    lowercased, any other letter is uppercased. *)
Fixpoint title_from (previous_is_cased : bool) (s : pystr) : pystr :=
  match s with
  | [] => []
  | c :: s' =>
      (if previous_is_cased
       then (if is_upper c then c + 32 else c)
       else (if is_lower c then c - 32 else c))%N
      :: title_from (is_upper c || is_lower c) s'
  end.

Definition ascii_title (s : pystr) : pystr := title_from false s.

(** A framework for running the script: creating the server always
    succeeds, and [run] throws an [Exception] at once. *)
Definition create_server_ok : script unit := fun l => (inl tt, l).

Definition run_bind_failure (server : unit) (transport host : pystr)
    (port : Z) : script unit :=
  fun l => (inr (Exception (lit "bind failed")), l).

(** ** Vocabulary of the properties *)

(** The dictionary [search] builds for its single hit (lines 56-62). *)
Definition mock_hit (hash : pystr -> Z) (title : pystr -> pystr)
    (query : pystr) : record :=
  list_to_map
    [ (lit "id", lit "mock@@@" ++ str_int (hash query mod 10000));
      (lit "title", lit "News Article on " ++ title query);
      (lit "text", lit "Full text about the topic: " ++ query);
      (lit "url",
       lit "https://mockup-url.org/"
       ++ lit "mock@@@" ++ str_int (hash query mod 10000)) ].

(** The dictionary [fetch] builds (lines 97-106). *)
Definition document (id : pystr) : gmap pystr pyval :=
  list_to_map
    [ (lit "id", PStr id);
      (lit "title", PStr (lit "Retrieved Document"));
      (lit "text", PStr (lit "Full document content for ID: " ++ id));
      (lit "url",
       PStr (lit "https://platform.openai.com/storage/files/" ++ id));
      (lit "metadata",
       PDict (list_to_map
                [ (lit "source", lit "Mockup Press");
                  (lit "retrieved_by", lit "Somebody") ])) ].

(** A string made of whitespace only; the empty string is one. *)
Definition blank (s : pystr) : bool := forallb isspace s.

Definition is_digit (c : codepoint) : bool := ((48 <=? c) && (c <=? 57))%N.

(** One to four decimal digits. *)
Definition short_decimal (s : pystr) : bool :=
  forallb is_digit s && (1 <=? length s)%nat && (length s <=? 4)%nat.

(** ** Facts about strings *)

Lemma lstrip_nil (s : pystr) :
  lstrip s = [] <-> forallb isspace s = true.
Proof.
  induction s as [|c s IH]; simpl.
  - tauto.
  - destruct (isspace c); simpl.
    + exact IH.
    + split; discriminate.
Qed.

Lemma forallb_lstrip (s : pystr) :
  forallb isspace (lstrip s) = forallb isspace s.
Proof.
  induction s as [|c s IH]; simpl; [reflexivity|].
  destruct (isspace c) eqn:E; simpl; [exact IH|].
  now rewrite E.
Qed.

Lemma forallb_rev_space (s : pystr) :
  forallb isspace (rev s) = forallb isspace s.
Proof.
  induction s as [|c s IH]; simpl; [reflexivity|].
  rewrite forallb_app, IH. simpl.
  rewrite andb_true_r. apply andb_comm.
Qed.

Lemma rstrip_nil (s : pystr) :
  rstrip s = [] <-> forallb isspace s = true.
Proof.
  unfold rstrip. rewrite <- forallb_rev_space, <- lstrip_nil.
  split; intros H.
  - apply (f_equal (@rev N)) in H. now rewrite rev_involutive in H.
  - now rewrite H.
Qed.

(** Stripping leaves nothing exactly when every code point is
    whitespace. *)
Lemma strip_nil (s : pystr) :
  strip s = [] <-> forallb isspace s = true.
Proof.
  unfold strip. now rewrite rstrip_nil, forallb_lstrip.
Qed.

Lemma truthy_false (s : pystr) : truthy s = false <-> s = [].
Proof. destruct s; simpl; split; congruence. Qed.

Lemma lit_nonempty_app (a : string) (s : pystr) :
  a <> EmptyString -> lit a ++ s <> [].
Proof. destruct a; [congruence|]. discriminate. Qed.

(** ** What the two tools compute *)

Section Tools.

Variable hash : pystr -> Z.
Variable title : pystr -> pystr.

(** The early return of [search]. *)
Lemma search_blank (q : pystr) (l : log) :
  blank q = true ->
  search hash title q l = (Return {[ lit "results" := [] ]}, l).
Proof.
  intros Hq. unfold search.
  apply strip_nil in Hq. rewrite Hq. simpl.
  now rewrite orb_true_r.
Qed.

Lemma strip_nonempty (q : pystr) :
  strip q <> [] -> truthy q = true /\ truthy (strip q) = true.
Proof.
  intros Hq. split.
  - destruct q; [now elim Hq|reflexivity].
  - destruct (strip q); [now elim Hq|reflexivity].
Qed.

(** The placeholder path of [search]: one hit, one log record. *)
Lemma search_hit (q : pystr) (l : log) :
  strip q <> [] ->
  search hash title q l =
    (Return {[ lit "results" := [mock_hit hash title q] ]},
     l ++ [lit "search returned 1 results"]).
Proof.
  intros Hq. destruct (strip_nonempty q Hq) as [H1 H2].
  unfold search. rewrite H1, H2. reflexivity.
Qed.

(** The guard of [fetch]. *)
Lemma fetch_empty (l : log) :
  fetch [] l = (Raise (ValueError (lit "Document ID is required")), l).
Proof. reflexivity. Qed.

(** The fabricated document of [fetch]. *)
Lemma fetch_document (id : pystr) (l : log) :
  id <> [] ->
  fetch id l =
    (Return (document id),
     l ++ [lit "Fetching content for file ID: " ++ id;
           lit "Fetched file: " ++ id]).
Proof.
  intros Hid. destruct id as [|c id]; [now elim Hid|].
  cbv beta iota zeta delta [fetch bind logger_info ret truthy negb].
  f_equal. now rewrite <- app_assoc.
Qed.

End Tools.

(** ** Facts about the decimal rendering *)

Lemma lit_inj (a b : string) : lit a = lit b -> a = b.
Proof.
  unfold lit. intros H.
  rewrite <- (string_of_list_ascii_of_string a),
          <- (string_of_list_ascii_of_string b).
  f_equal.
  revert H. generalize (list_ascii_of_string a) (list_ascii_of_string b).
  induction l as [|x l IH]; intros [|y l'] H; simpl in H;
    try discriminate; [reflexivity|].
  injection H as Hxy Hl. f_equal; [|now apply IH].
  rewrite <- (ascii_N_embedding x), <- (ascii_N_embedding y).
  now rewrite Hxy.
Qed.

Lemma to_int_proper (z : Z) :
  Z.to_int z <> Decimal.Pos Nil /\ Z.to_int z <> Decimal.Neg Nil.
Proof.
  destruct z as [|p|p]; simpl; split; try discriminate;
    intros [= H]; now apply (DecimalPos.Unsigned.to_uint_nonnil p).
Qed.

(** Two integers with the same rendering are equal. *)
Lemma str_int_inj (a b : Z) : str_int a = str_int b -> a = b.
Proof.
  unfold str_int. intros H. apply lit_inj in H.
  apply DecimalZ.to_int_inj.
  destruct (to_int_proper a) as [Ha1 Ha2].
  destruct (to_int_proper b) as [Hb1 Hb2].
  pose proof (NilZero.isi _ Ha1 Ha2) as Ia.
  pose proof (NilZero.isi _ Hb1 Hb2) as Ib.
  rewrite H in Ia. congruence.
Qed.

(** An accumulated numeral is at least its accumulator shifted by the
    digits that follow. *)
Lemma of_uint_acc_lower (d : uint) (acc : positive) :
  Z.pos acc * 10 ^ Z.of_nat (nb_digits d) <= Z.pos (Pos.of_uint_acc d acc).
Proof.
  revert acc.
  induction d as [|d IH|d IH|d IH|d IH|d IH|d IH|d IH|d IH|d IH|d IH];
    intros acc; [simpl; lia|..];
    cbn [Pos.of_uint_acc nb_digits];
    rewrite Nat2Z.inj_succ, Z.pow_succ_r by lia;
    assert (0 <= 10 ^ Z.of_nat (nb_digits d)) by (apply Z.pow_nonneg; lia);
    match goal with
    | |- _ <= Z.pos (Pos.of_uint_acc _ ?a) => specialize (IH a)
    end; nia.
Qed.

Lemma to_uint_unorm (p : positive) : unorm (Pos.to_uint p) = Pos.to_uint p.
Proof.
  rewrite <- (DecimalPos.Unsigned.to_of (Pos.to_uint p)).
  now rewrite DecimalPos.Unsigned.of_to.
Qed.

(** A positive number with [k] decimal digits is at least [10 ^ (k - 1)]:
    its numeral has no leading zero. *)
Lemma nb_digits_to_uint (p : positive) :
  10 ^ (Z.of_nat (nb_digits (Pos.to_uint p)) - 1) <= Z.pos p.
Proof.
  pose proof (DecimalPos.Unsigned.of_to p) as Hof.
  pose proof (to_uint_unorm p) as Hn.
  pose proof (DecimalPos.Unsigned.to_uint_nonzero p) as Hz.
  destruct (Pos.to_uint p) as [|d|d|d|d|d|d|d|d|d|d] eqn:E;
    [discriminate Hof|..]; simpl in Hof.
  2-10: cbn [nb_digits]; rewrite Nat2Z.inj_succ;
        replace (Z.succ (Z.of_nat (nb_digits d)) - 1)
          with (Z.of_nat (nb_digits d)) by lia;
        injection Hof as <-;
        match goal with
        | |- _ <= Z.pos (Pos.of_uint_acc _ ?a) =>
            pose proof (of_uint_acc_lower d a)
        end;
        assert (0 <= 10 ^ Z.of_nat (nb_digits d))
          by (apply Z.pow_nonneg; lia);
        nia.
  exfalso. unfold unorm in Hn. simpl in Hn.
  pose proof (nb_digits_nzhead d) as Hd.
  destruct (nzhead d) eqn:Ed;
    try (rewrite Hn in Hd; cbn [nb_digits] in Hd; lia).
  apply Hz. exact (eq_sym Hn).
Qed.

Lemma lit_uint_digits (d : uint) :
  forallb is_digit (lit (NilEmpty.string_of_uint d)) = true.
Proof. induction d; simpl; auto. Qed.

Lemma lit_uint_length (d : uint) :
  length (lit (NilEmpty.string_of_uint d)) = nb_digits d.
Proof. induction d; simpl; auto. Qed.

Lemma str_int_pos (p : positive) :
  str_int (Z.pos p) = lit (NilEmpty.string_of_uint (Pos.to_uint p)).
Proof.
  unfold str_int. simpl.
  pose proof (DecimalPos.Unsigned.to_uint_nonnil p) as H.
  now destruct (Pos.to_uint p).
Qed.

(** A natural number is rendered in digits only. *)
Lemma str_int_digits (n : Z) : 0 <= n -> forallb is_digit (str_int n) = true.
Proof.
  destruct n as [|p|p]; intros Hn; [reflexivity| |lia].
  rewrite str_int_pos. apply lit_uint_digits.
Qed.

(** The rendering of a number below ten thousand. *)
Lemma str_int_small (n : Z) :
  0 <= n <= 9999 -> short_decimal (str_int n) = true.
Proof.
  intros Hn. unfold short_decimal.
  rewrite str_int_digits by lia.
  destruct n as [|p|p]; [reflexivity| |lia].
  rewrite str_int_pos, lit_uint_length.
  pose proof (nb_digits_to_uint p) as Hp.
  pose proof (DecimalPos.Unsigned.to_uint_nonnil p) as Hnil.
  assert (H1 : (nb_digits (Pos.to_uint p) <> 0)%nat).
  { intros E. now apply nb_digits_0 in E. }
  assert (H4 : (nb_digits (Pos.to_uint p) <= 4)%nat).
  { destruct (le_lt_dec (nb_digits (Pos.to_uint p)) 4) as [H|H]; [exact H|].
    assert (10 ^ 4 <= 10 ^ (Z.of_nat (nb_digits (Pos.to_uint p)) - 1))
      by (apply Z.pow_le_mono_r; lia).
    lia. }
  rewrite andb_true_l. apply andb_true_intro. split.
  - apply Nat.leb_le. lia.
  - apply Nat.leb_le. exact H4.
Qed.

Lemma str_int_nonempty (n : Z) : str_int n <> [].
Proof.
  unfold str_int. intros H. change [] with (lit EmptyString) in H.
  apply lit_inj in H.
  destruct (to_int_proper n) as [H1 H2].
  pose proof (NilZero.isi _ H1 H2) as I. rewrite H in I. discriminate.
Qed.

(** ** The fields of the two dictionaries *)

Lemma mock_hit_id (hash : pystr -> Z) (title : pystr -> pystr) (q : pystr) :
  mock_hit hash title q !! lit "id"
  = Some (lit "mock@@@" ++ str_int (hash q mod 10000)).
Proof. reflexivity. Qed.

Lemma mock_hit_url (hash : pystr -> Z) (title : pystr -> pystr) (q : pystr) :
  mock_hit hash title q !! lit "url"
  = Some (lit "https://mockup-url.org/"
          ++ lit "mock@@@" ++ str_int (hash q mod 10000)).
Proof. reflexivity. Qed.

Lemma document_id (id : pystr) : document id !! lit "id" = Some (PStr id).
Proof. reflexivity. Qed.

Lemma document_dom (id : pystr) :
  dom (document id)
  = {[ lit "id"; lit "title"; lit "text"; lit "url"; lit "metadata" ]}.
Proof.
  unfold document. simpl.
  rewrite !dom_insert_L, dom_empty_L. set_solver.
Qed.

(** Whatever [search] returns, it returns under the key ["results"], and
    the list there is empty or holds the one placeholder hit. *)
Lemma search_cases (hash : pystr -> Z) (title : pystr -> pystr)
    (q : pystr) (l : log) :
  (blank q = true
   /\ search hash title q l = (Return {[ lit "results" := [] ]}, l))
  \/ (strip q <> []
      /\ search hash title q l =
           (Return {[ lit "results" := [mock_hit hash title q] ]},
            l ++ [lit "search returned 1 results"])).
Proof.
  destruct (blank q) eqn:Hq.
  - left. split; [reflexivity|]. now apply search_blank.
  - right. assert (Hs : strip q <> []).
    { intros E. apply strip_nil in E. unfold blank in Hq. congruence. }
    split; [exact Hs|]. now apply search_hit.
Qed.

Lemma Return_inj {A} (a b : A) : Return a = Return b -> a = b.
Proof. congruence. Qed.

(** X14: two interpreters answer a non-blank query alike exactly when
    their hashes of the query agree modulo ten thousand. *)
Lemma search_across_interpreters (h1 h2 : pystr -> Z)
    (title : pystr -> pystr) (q : pystr) (l1 l2 : log) :
  strip q <> [] ->
  response (search h1 title q l1) = response (search h2 title q l2)
  <-> h1 q mod 10000 = h2 q mod 10000.
Proof.
  intros Hq. rewrite !search_hit by exact Hq. unfold response. cbn [fst].
  split.
  - intros H. apply Return_inj, map_singleton_inj in H as [_ H].
    apply (f_equal head), (inj Some) in H.
    apply (f_equal (fun r : gmap (list N) (list N) => r !! lit "id")) in H.
    rewrite !mock_hit_id in H. injection H as H.
    now apply str_int_inj.
  - intros H. unfold mock_hit. now rewrite H.
Qed.

(** ** The properties of the specification *)

(** C1: every identifier found among the results of a [search] call is
    accepted by a later [fetch], whatever has been logged in between, and
    the document [fetch] returns carries that identifier in its ["id"]
    field. *)
Theorem search_ids_fetchable (hash : pystr -> Z) (title : pystr -> pystr)
    (q : pystr) (l l' : log) (resp : gmap pystr (list record))
    (hits : list record) (hit : record) (i : pystr) :
  search hash title q l = (Return resp, l') ->
  resp !! lit "results" = Some hits ->
  hit ∈ hits ->
  hit !! lit "id" = Some i ->
  forall l0 : log,
    exists doc l1,
      fetch i l0 = (Return doc, l1) /\ doc !! lit "id" = Some (PStr i).
Proof.
  intros Hs Hr Hin Hid l0.
  destruct (search_cases hash title q l) as [[_ E]|[_ E]];
    rewrite E in Hs; injection Hs as <- <-;
    rewrite lookup_singleton_eq in Hr; injection Hr as <-.
  - now apply elem_of_nil in Hin.
  - apply list_elem_of_singleton in Hin as ->.
    rewrite mock_hit_id in Hid. injection Hid as <-.
    exists (document (lit "mock@@@" ++ str_int (hash q mod 10000))).
    eexists. split; [|apply document_id].
    apply fetch_document. discriminate.
Qed.

Lemma search_ids_fetchable_witness :
  exists doc l1,
    fetch (lit "mock@@@3959") [] = (Return doc, l1)
    /\ doc !! lit "id" = Some (PStr (lit "mock@@@3959")).
Proof.
  apply (search_ids_fetchable (salted_hash 0) ascii_title (lit "cats")
           [] [lit "search returned 1 results"]
           {[ lit "results" := [mock_hit (salted_hash 0) ascii_title
                                         (lit "cats")] ]}
           [mock_hit (salted_hash 0) ascii_title (lit "cats")]
           (mock_hit (salted_hash 0) ascii_title (lit "cats"))
           (lit "mock@@@3959")).
  - reflexivity.
  - reflexivity.
  - apply list_elem_of_singleton. reflexivity.
  - reflexivity.
Defined.

(** C2, evaluated on the code: [fetch] consults no document store.  For
    the identifier ["doc1"], which nothing backs, it does not fail: it
    logs twice and returns a document made up from the identifier. *)
Theorem fetch_unknown_id_fabricates :
  fetch (lit "doc1") []
  = (Return (document (lit "doc1")),
     [lit "Fetching content for file ID: doc1"; lit "Fetched file: doc1"])
  /\ document (lit "doc1") !! lit "text"
     = Some (PStr (lit "Full document content for ID: doc1")).
Proof. split; reflexivity. Qed.

(** C3: a query that is empty or made of whitespace only gets the
    empty-results response; nothing is raised and nothing is logged. *)
Theorem search_blank_query_empty_results (hash : pystr -> Z)
    (title : pystr -> pystr) (q : pystr) (l : log) :
  Forall (fun c => isspace c = true) q ->
  search hash title q l = (Return {[ lit "results" := [] ]}, l).
Proof.
  intros Hq. apply search_blank.
  unfold blank. apply forallb_forall. intros c Hc.
  rewrite Forall_forall in Hq. apply Hq. now apply list_elem_of_In.
Qed.

Lemma search_blank_query_empty_results_witness :
  search (salted_hash 0) ascii_title [] []
  = (Return {[ lit "results" := [] ]}, [])
  /\ search (salted_hash 0) ascii_title (lit "   ") []
     = (Return {[ lit "results" := [] ]}, []).
Proof.
  split.
  - apply (search_blank_query_empty_results (salted_hash 0) ascii_title
             [] []).
    apply Forall_nil_2.
  - apply (search_blank_query_empty_results (salted_hash 0) ascii_title
             (lit "   ") []).
    repeat constructor.
Defined.

(** C4: [fetch] of the empty string raises [ValueError] in every state,
    and it does so before the first log record and before any response is
    built: the log is left as it was. *)
Theorem fetch_empty_id_raises (l : log) :
  fetch [] l
  = (Raise (ValueError (lit "Document ID is required")), l).
Proof. apply fetch_empty. Qed.

(** C6, as stated, fails: the same query gets two different responses
    from two interpreters whose string hashes are salted differently. *)
Lemma search_differs_across_interpreters :
  response (search (salted_hash 0) ascii_title (lit "cats") [])
  <> response (search (salted_hash 7) ascii_title (lit "cats") []).
Proof.
  rewrite !search_hit by (vm_compute; discriminate).
  unfold response. cbn [fst]. intros H.
  apply Return_inj, map_singleton_inj in H as [_ H].
  apply (f_equal head), (inj Some) in H.
  apply (f_equal (fun r : gmap (list N) (list N) => r !! lit "id")) in H.
  rewrite !mock_hit_id in H. apply (inj Some) in H.
  apply (app_inv_head (lit "mock@@@")), str_int_inj in H.
  vm_compute in H. discriminate H.
Qed.

(** C6, as amended: the response of [search] and the records it logs are
    a function of the query, of the hash of the query modulo ten thousand
    and of [query.title()], and of nothing else.  Two calls with the same
    query, in any two states of the log and under any two interpreters
    that agree on these two values, return the same response and append
    the same records; within one interpreter process, where [hash] and
    [str.title] are each one function, this is determinism. *)
Theorem search_deterministic_given_hash (h1 h2 : pystr -> Z)
    (t1 t2 : pystr -> pystr) (q : pystr) (l1 l2 : log) :
  h1 q mod 10000 = h2 q mod 10000 ->
  t1 q = t2 q ->
  response (search h1 t1 q l1) = response (search h2 t2 q l2)
  /\ exists new : log,
       log_after (search h1 t1 q l1) = l1 ++ new
       /\ log_after (search h2 t2 q l2) = l2 ++ new.
Proof.
  intros Hh Ht.
  destruct (search_cases h1 t1 q l1) as [[Hb E1]|[Hs E1]].
  - rewrite E1, (search_blank h2 t2 q l2 Hb).
    split; [reflexivity|]. exists []. now rewrite !app_nil_r.
  - rewrite E1, (search_hit h2 t2 q l2 Hs).
    unfold mock_hit. rewrite Hh, Ht.
    split; [reflexivity|]. now exists [lit "search returned 1 results"].
Qed.

Lemma search_deterministic_given_hash_witness :
  response (search (salted_hash 0) ascii_title (lit "cats") [])
  = response (search (salted_hash 0) ascii_title (lit "cats")
                [lit "earlier record"])
  /\ exists new : log,
       log_after (search (salted_hash 0) ascii_title (lit "cats") [])
       = [] ++ new
       /\ log_after (search (salted_hash 0) ascii_title (lit "cats")
                       [lit "earlier record"])
          = [lit "earlier record"] ++ new.
Proof.
  apply (search_deterministic_given_hash (salted_hash 0) (salted_hash 0)
           ascii_title ascii_title (lit "cats") [] [lit "earlier record"]).
  - reflexivity.
  - reflexivity.
Defined.

(** C7: [fetch] is idempotent.  For a non-empty identifier, two calls
    made in any two states of the log, so in particular one right after
    the other, return the same document. *)
Theorem fetch_idempotent (id : pystr) (l l' : log) :
  id <> [] ->
  exists doc,
    response (fetch id l) = Return doc
    /\ response (fetch id l') = Return doc
    /\ response (fetch id (log_after (fetch id l))) = Return doc.
Proof.
  intros Hid. exists (document id).
  rewrite !fetch_document by exact Hid. auto.
Qed.

Lemma fetch_idempotent_witness :
  exists doc,
    response (fetch (lit "doc1") []) = Return doc
    /\ response (fetch (lit "doc1") [lit "earlier record"]) = Return doc
    /\ response (fetch (lit "doc1") (log_after (fetch (lit "doc1") [])))
       = Return doc.
Proof.
  apply (fetch_idempotent (lit "doc1") [] [lit "earlier record"]).
  vm_compute. discriminate.
Defined.

(** C8: for a non-empty identifier the response of [fetch] has the fixed
    shape: exactly the fields ["id"], ["title"], ["text"], ["url"] and
    ["metadata"]; ["id"] is the identifier given, ["text"] is the fixed
    prefix followed by the whole identifier, ["url"] ends in the whole
    identifier, and ["metadata"] is a dictionary. *)
Theorem fetch_response_schema (id : pystr) (l : log) :
  id <> [] ->
  exists (doc : gmap pystr pyval) (l' : log) (metadata : record),
    fetch id l = (Return doc, l')
    /\ dom doc
       = {[ lit "id"; lit "title"; lit "text"; lit "url"; lit "metadata" ]}
    /\ doc !! lit "id" = Some (PStr id)
    /\ doc !! lit "title" = Some (PStr (lit "Retrieved Document"))
    /\ doc !! lit "text"
       = Some (PStr (lit "Full document content for ID: " ++ id))
    /\ doc !! lit "url"
       = Some (PStr (lit "https://platform.openai.com/storage/files/"
                     ++ id))
    /\ doc !! lit "metadata" = Some (PDict metadata)
    /\ metadata !! lit "source" = Some (lit "Mockup Press")
    /\ metadata !! lit "retrieved_by" = Some (lit "Somebody").
Proof.
  intros Hid. exists (document id). eexists. eexists.
  split; [now apply fetch_document|].
  split; [apply document_dom|].
  repeat split; reflexivity.
Qed.

Lemma fetch_response_schema_witness :
  exists (doc : gmap pystr pyval) (l' : log) (metadata : record),
    fetch (lit "file-42") [] = (Return doc, l')
    /\ dom doc
       = {[ lit "id"; lit "title"; lit "text"; lit "url"; lit "metadata" ]}
    /\ doc !! lit "id" = Some (PStr (lit "file-42"))
    /\ doc !! lit "title" = Some (PStr (lit "Retrieved Document"))
    /\ doc !! lit "text"
       = Some (PStr (lit "Full document content for ID: "
                     ++ lit "file-42"))
    /\ doc !! lit "url"
       = Some (PStr (lit "https://platform.openai.com/storage/files/"
                     ++ lit "file-42"))
    /\ doc !! lit "metadata" = Some (PDict metadata)
    /\ metadata !! lit "source" = Some (lit "Mockup Press")
    /\ metadata !! lit "retrieved_by" = Some (lit "Somebody").
Proof.
  apply (fetch_response_schema (lit "file-42") []).
  vm_compute. discriminate.
Defined.

(** C9: for a query that is non-empty after trimming, [search] returns
    exactly one result; its ["id"] is ["mock@@@"] followed by the decimal
    rendering, one to four digits, of a number between 0 and 9999, and
    its ["url"] is ["https://mockup-url.org/"] followed by that id. *)
Theorem search_single_mock_result (hash : pystr -> Z)
    (title : pystr -> pystr) (q : pystr) (l : log) :
  strip q <> [] ->
  exists (hit : record) (l' : log) (n : Z),
    search hash title q l = (Return {[ lit "results" := [hit] ]}, l')
    /\ 0 <= n <= 9999
    /\ short_decimal (str_int n) = true
    /\ hit !! lit "id" = Some (lit "mock@@@" ++ str_int n)
    /\ hit !! lit "url"
       = Some (lit "https://mockup-url.org/" ++ lit "mock@@@" ++ str_int n).
Proof.
  intros Hq.
  assert (Hn : 0 <= hash q mod 10000 <= 9999).
  { pose proof (Z.mod_pos_bound (hash q) 10000). lia. }
  exists (mock_hit hash title q). eexists. exists (hash q mod 10000).
  split; [now apply search_hit|].
  split; [exact Hn|].
  split; [now apply str_int_small|].
  split; reflexivity.
Qed.

Lemma search_single_mock_result_witness :
  exists (hit : record) (l' : log) (n : Z),
    search (salted_hash 0) ascii_title (lit " a b ") []
    = (Return {[ lit "results" := [hit] ]}, l')
    /\ 0 <= n <= 9999
    /\ short_decimal (str_int n) = true
    /\ hit !! lit "id" = Some (lit "mock@@@" ++ str_int n)
    /\ hit !! lit "url"
       = Some (lit "https://mockup-url.org/" ++ lit "mock@@@" ++ str_int n).
Proof.
  apply (search_single_mock_result (salted_hash 0) ascii_title
           (lit " a b ") []).
  vm_compute. discriminate.
Defined.

(** C10: [fetch] rejects the empty string only.  An identifier made of
    whitespace alone is not trimmed: [fetch] returns a document whose
    ["id"] is that identifier and whose ["text"] ends in it, while
    [search] treats the same string as no query at all. *)
Theorem fetch_whitespace_id_accepted (hash : pystr -> Z)
    (title : pystr -> pystr) (id : pystr) (l : log) :
  id <> [] ->
  Forall (fun c => isspace c = true) id ->
  (exists (doc : gmap pystr pyval) (l' : log),
     fetch id l = (Return doc, l')
     /\ doc !! lit "id" = Some (PStr id)
     /\ doc !! lit "text"
        = Some (PStr (lit "Full document content for ID: " ++ id)))
  /\ search hash title id l = (Return {[ lit "results" := [] ]}, l).
Proof.
  intros Hid Hsp. split.
  - exists (document id). eexists.
    split; [now apply fetch_document|]. split; reflexivity.
  - apply search_blank. unfold blank. apply forallb_forall. intros c Hc.
    rewrite Forall_forall in Hsp. apply Hsp. now apply list_elem_of_In.
Qed.

Lemma fetch_whitespace_id_accepted_witness :
  (exists (doc : gmap pystr pyval) (l' : log),
     fetch (lit " ") [] = (Return doc, l')
     /\ doc !! lit "id" = Some (PStr (lit " "))
     /\ doc !! lit "text"
        = Some (PStr (lit "Full document content for ID: " ++ lit " ")))
  /\ search (salted_hash 0) ascii_title (lit " ") []
     = (Return {[ lit "results" := [] ]}, []).
Proof.
  apply (fetch_whitespace_id_accepted (salted_hash 0) ascii_title
           (lit " ") []).
  - vm_compute. discriminate.
  - repeat constructor.
Defined.

(** ** Further properties of the two tools *)

Lemma mock_hit_title (hash : pystr -> Z) (title : pystr -> pystr)
    (q : pystr) :
  mock_hit hash title q !! lit "title"
  = Some (lit "News Article on " ++ title q).
Proof. reflexivity. Qed.

Lemma mock_hit_text (hash : pystr -> Z) (title : pystr -> pystr)
    (q : pystr) :
  mock_hit hash title q !! lit "text"
  = Some (lit "Full text about the topic: " ++ q).
Proof. reflexivity. Qed.

Lemma mock_hit_dom (hash : pystr -> Z) (title : pystr -> pystr)
    (q : pystr) :
  dom (mock_hit hash title q)
  = {[ lit "id"; lit "title"; lit "text"; lit "url" ]}.
Proof.
  unfold mock_hit. cbn [list_to_map foldr uncurry fst snd].
  rewrite !dom_insert_L, dom_empty_L. set_solver.
Qed.

Lemma forallb_false_elem (f : N -> bool) (s : pystr) :
  forallb f s = false <-> exists c, c ∈ s /\ f c = false.
Proof.
  induction s as [|x s IH]; simpl.
  - split; [discriminate|]. intros (c & Hc & _). now apply elem_of_nil in Hc.
  - rewrite andb_false_iff, IH. split.
    + intros [H|(c & Hc & H)].
      * exists x. split; [left|exact H].
      * exists c. split; [now right|exact H].
    + intros (c & Hc & H). apply elem_of_cons in Hc as [->|Hc].
      * now left.
      * right. now exists c.
Qed.

Lemma returned_inj {A} (a b : A) (l l' : list (list N)) :
  (Return a, l) = (Return b, l') -> a = b /\ l = l'.
Proof. intros H. split; congruence. Qed.

(** A string has something left after stripping exactly when one of its
    code points is not whitespace. *)
Lemma strip_nonempty_iff (q : pystr) :
  strip q <> [] <-> exists c, c ∈ q /\ isspace c = false.
Proof.
  rewrite <- forallb_false_elem, strip_nil.
  destruct (forallb isspace q); split; congruence.
Qed.

(** X1: the hit of a non-blank query has exactly the fields ["id"],
    ["title"], ["text"] and ["url"]; the text ends in the query as it was
    given, untrimmed, and the title in [query.title()]. *)
Theorem search_hit_schema (hash : pystr -> Z) (title : pystr -> pystr)
    (q : pystr) (l : log) :
  strip q <> [] ->
  exists (hit : record) (l' : log),
    search hash title q l = (Return {[ lit "results" := [hit] ]}, l')
    /\ dom hit = {[ lit "id"; lit "title"; lit "text"; lit "url" ]}
    /\ hit !! lit "title" = Some (lit "News Article on " ++ title q)
    /\ hit !! lit "text" = Some (lit "Full text about the topic: " ++ q).
Proof.
  intros Hq. exists (mock_hit hash title q). eexists.
  split; [now apply search_hit|].
  split; [apply mock_hit_dom|].
  split; [apply mock_hit_title|apply mock_hit_text].
Qed.

Lemma search_hit_schema_witness :
  exists (hit : record) (l' : log),
    search (salted_hash 0) ascii_title (lit " big cats ") []
    = (Return {[ lit "results" := [hit] ]}, l')
    /\ dom hit = {[ lit "id"; lit "title"; lit "text"; lit "url" ]}
    /\ hit !! lit "title"
       = Some (lit "News Article on " ++ ascii_title (lit " big cats "))
    /\ hit !! lit "text"
       = Some (lit "Full text about the topic: " ++ lit " big cats ").
Proof.
  apply (search_hit_schema (salted_hash 0) ascii_title (lit " big cats ") []).
  vm_compute. discriminate.
Defined.

(** X2: [search] returns a hit exactly when the query holds a code point
    that is not whitespace. *)
Theorem search_hit_iff_nonspace (hash : pystr -> Z) (title : pystr -> pystr)
    (q : pystr) (l : log) :
  (exists c, c ∈ q /\ isspace c = false)
  <-> (exists (hit : record) (l' : log),
         search hash title q l
         = (Return {[ lit "results" := [hit] ]}, l')).
Proof.
  rewrite <- strip_nonempty_iff. split.
  - intros Hq. exists (mock_hit hash title q). eexists.
    now apply search_hit.
  - intros (hit & l' & E) Hs.
    apply strip_nil in Hs. rewrite (search_blank hash title q l Hs) in E.
    apply returned_inj in E as [E _].
    apply map_singleton_inj in E as [_ E]. discriminate E.
Qed.

(** X3: [search] never raises: for every query it returns a dictionary
    whose only key is ["results"], holding at most one hit. *)
Theorem search_never_raises (hash : pystr -> Z) (title : pystr -> pystr)
    (q : pystr) (l : log) :
  exists (resp : gmap pystr (list record)) (hits : list record) (l' : log),
    search hash title q l = (Return resp, l')
    /\ dom resp = {[ lit "results" ]}
    /\ resp !! lit "results" = Some hits
    /\ (length hits <= 1)%nat.
Proof.
  destruct (search_cases hash title q l) as [[_ E]|[_ E]]; rewrite E.
  - exists {[ lit "results" := [] ]}, [], l.
    split; [reflexivity|]. split; [apply dom_singleton_L|].
    split; [apply lookup_singleton_eq|]. simpl. lia.
  - exists {[ lit "results" := [mock_hit hash title q] ]},
           [mock_hit hash title q]. eexists.
    split; [reflexivity|]. split; [apply dom_singleton_L|].
    split; [apply lookup_singleton_eq|]. simpl. lia.
Qed.

(** X4: [fetch] raises exactly for the empty identifier, and what it
    raises is the [ValueError] of its guard. *)
Theorem fetch_raises_iff_empty (id : pystr) (l : log) :
  (exists (e : exn) (l' : log), fetch id l = (Raise e, l'))
  <-> id = [].
Proof.
  split.
  - intros (e & l' & E). destruct id as [|c id]; [reflexivity|].
    rewrite fetch_document in E by discriminate. discriminate E.
  - intros ->. eexists. eexists. apply fetch_empty.
Qed.

Lemma document_text (id : pystr) :
  document id !! lit "text"
  = Some (PStr (lit "Full document content for ID: " ++ id)).
Proof. reflexivity. Qed.

Lemma document_title (id : pystr) :
  document id !! lit "title" = Some (PStr (lit "Retrieved Document")).
Proof. reflexivity. Qed.

Lemma document_url (id : pystr) :
  document id !! lit "url"
  = Some (PStr (lit "https://platform.openai.com/storage/files/" ++ id)).
Proof. reflexivity. Qed.

(** X5: the response to a non-blank query determines the query: another
    query, whatever the log, gets the same response only if it is the
    same string, surrounding whitespace included. *)
Theorem search_response_determines_query (hash : pystr -> Z)
    (title : pystr -> pystr) (q1 q2 : pystr) (l1 l2 : log) :
  strip q1 <> [] ->
  response (search hash title q1 l1) = response (search hash title q2 l2) ->
  q1 = q2.
Proof.
  intros H1 E. rewrite (search_hit hash title q1 l1 H1) in E.
  destruct (search_cases hash title q2 l2) as [[_ E2]|[_ E2]];
    rewrite E2 in E; unfold response in E; cbn [fst] in E;
    apply Return_inj, map_singleton_inj in E as [_ E].
  - discriminate E.
  - apply (f_equal head), (inj Some) in E.
    apply (f_equal (fun r : gmap (list N) (list N) => r !! lit "text")) in E.
    rewrite !mock_hit_text in E. apply (inj Some) in E.
    now apply app_inv_head in E.
Qed.

Lemma search_response_determines_query_witness :
  response (search (salted_hash 0) ascii_title (lit "cats") [])
  = response (search (salted_hash 0) ascii_title (lit "cats")
                [lit "earlier record"])
  /\ lit "cats" = lit "cats".
Proof.
  split; [reflexivity|].
  apply (search_response_determines_query (salted_hash 0) ascii_title
           (lit "cats") (lit "cats") [] [lit "earlier record"]).
  - vm_compute. discriminate.
  - reflexivity.
Defined.

(** X6: the response of [fetch] to a non-empty identifier determines the
    identifier: no other identifier, empty or not, gets the same
    response. *)
Theorem fetch_response_determines_id (id1 id2 : pystr) (l1 l2 : log) :
  id1 <> [] ->
  response (fetch id1 l1) = response (fetch id2 l2) ->
  id1 = id2.
Proof.
  intros H1 E. rewrite (fetch_document id1 l1 H1) in E.
  destruct id2 as [|c id2].
  - rewrite fetch_empty in E. discriminate E.
  - rewrite fetch_document in E by discriminate.
    unfold response in E. cbn [fst] in E. apply Return_inj in E.
    apply (f_equal (fun d : gmap (list N) pyval => d !! lit "id")) in E.
    rewrite !document_id in E. congruence.
Qed.

Lemma fetch_response_determines_id_witness :
  response (fetch (lit "doc1") [])
  = response (fetch (lit "doc1") [lit "earlier record"])
  /\ lit "doc1" = lit "doc1".
Proof.
  split; [reflexivity|].
  apply (fetch_response_determines_id (lit "doc1") (lit "doc1")
           [] [lit "earlier record"]).
  - vm_compute. discriminate.
  - reflexivity.
Defined.

(** X7: identifiers are shared between queries.  Two non-blank queries
    get the same ["id"], and then the same ["url"], exactly when their
    hashes agree modulo ten thousand. *)
Theorem search_ids_collide (hash : pystr -> Z) (title : pystr -> pystr)
    (q1 q2 : pystr) (l1 l2 : log) :
  strip q1 <> [] ->
  strip q2 <> [] ->
  exists (hit1 hit2 : record) (l1' l2' : log),
    search hash title q1 l1 = (Return {[ lit "results" := [hit1] ]}, l1')
    /\ search hash title q2 l2 = (Return {[ lit "results" := [hit2] ]}, l2')
    /\ (hit1 !! lit "id" = hit2 !! lit "id"
        <-> hash q1 mod 10000 = hash q2 mod 10000)
    /\ (hit1 !! lit "url" = hit2 !! lit "url"
        <-> hash q1 mod 10000 = hash q2 mod 10000).
Proof.
  intros H1 H2.
  exists (mock_hit hash title q1), (mock_hit hash title q2).
  eexists. eexists.
  split; [now apply search_hit|]. split; [now apply search_hit|].
  rewrite !mock_hit_id, !mock_hit_url. split; split.
  - intros E. apply (inj Some) in E.
    apply (app_inv_head (lit "mock@@@")) in E. now apply str_int_inj.
  - now intros ->.
  - intros E. apply (inj Some) in E.
    apply (app_inv_head (lit "https://mockup-url.org/")) in E.
    apply (app_inv_head (lit "mock@@@")) in E. now apply str_int_inj.
  - now intros ->.
Qed.

Lemma search_ids_collide_witness :
  exists (hit1 hit2 : record) (l1' l2' : log),
    search (fun s => Z.of_nat (length s)) ascii_title (lit "cats") []
    = (Return {[ lit "results" := [hit1] ]}, l1')
    /\ search (fun s => Z.of_nat (length s)) ascii_title (lit "dogs") []
       = (Return {[ lit "results" := [hit2] ]}, l2')
    /\ (hit1 !! lit "id" = hit2 !! lit "id"
        <-> Z.of_nat (length (lit "cats")) mod 10000
            = Z.of_nat (length (lit "dogs")) mod 10000)
    /\ (hit1 !! lit "url" = hit2 !! lit "url"
        <-> Z.of_nat (length (lit "cats")) mod 10000
            = Z.of_nat (length (lit "dogs")) mod 10000).
Proof.
  apply (search_ids_collide (fun s => Z.of_nat (length s)) ascii_title
           (lit "cats") (lit "dogs") [] []).
  - vm_compute. discriminate.
  - vm_compute. discriminate.
Defined.

(** X8: what [fetch] returns for the identifier of a hit agrees with the
    hit on ["id"] alone: its title, its text and its url all differ from
    those of the hit. *)
Theorem search_then_fetch_agree_on_id_only (hash : pystr -> Z)
    (title : pystr -> pystr) (q : pystr) (l l0 : log) :
  strip q <> [] ->
  exists (hit : record) (i : pystr) (doc : gmap pystr pyval) (l' l1 : log),
    search hash title q l = (Return {[ lit "results" := [hit] ]}, l')
    /\ hit !! lit "id" = Some i
    /\ fetch i l0 = (Return doc, l1)
    /\ doc !! lit "id" = PStr <$> hit !! lit "id"
    /\ doc !! lit "title" <> PStr <$> hit !! lit "title"
    /\ doc !! lit "text" <> PStr <$> hit !! lit "text"
    /\ doc !! lit "url" <> PStr <$> hit !! lit "url".
Proof.
  intros Hq.
  exists (mock_hit hash title q),
         (lit "mock@@@" ++ str_int (hash q mod 10000)),
         (document (lit "mock@@@" ++ str_int (hash q mod 10000))).
  eexists. eexists.
  split; [now apply search_hit|].
  split; [apply mock_hit_id|].
  split; [apply fetch_document; discriminate|].
  rewrite document_id, document_title, document_text, document_url.
  rewrite mock_hit_id, mock_hit_title, mock_hit_text, mock_hit_url.
  cbn [fmap option_fmap option_map].
  repeat split; discriminate.
Qed.

Lemma search_then_fetch_agree_on_id_only_witness :
  exists (hit : record) (i : pystr) (doc : gmap pystr pyval) (l' l1 : log),
    search (salted_hash 0) ascii_title (lit "cats") []
    = (Return {[ lit "results" := [hit] ]}, l')
    /\ hit !! lit "id" = Some i
    /\ fetch i [] = (Return doc, l1)
    /\ doc !! lit "id" = PStr <$> hit !! lit "id"
    /\ doc !! lit "title" <> PStr <$> hit !! lit "title"
    /\ doc !! lit "text" <> PStr <$> hit !! lit "text"
    /\ doc !! lit "url" <> PStr <$> hit !! lit "url".
Proof.
  apply (search_then_fetch_agree_on_id_only (salted_hash 0) ascii_title
           (lit "cats") [] []).
  vm_compute. discriminate.
Defined.

(** X9: [search] logs exactly when it returns a hit, one record, and the
    number in that record is the length of the list it returns; earlier
    records are kept as they were. *)
Theorem search_log_matches_results (hash : pystr -> Z)
    (title : pystr -> pystr) (q : pystr) (l : log) :
  exists (hits : list record) (new : log),
    search hash title q l = (Return {[ lit "results" := hits ]}, l ++ new)
    /\ ((hits = [] /\ new = [])
        \/ (hits <> []
            /\ new = [lit "search returned "
                      ++ str_int (Z.of_nat (length hits))
                      ++ lit " results"])).
Proof.
  destruct (search_cases hash title q l) as [[_ E]|[_ E]]; rewrite E.
  - exists [], []. rewrite app_nil_r. split; [reflexivity|]. now left.
  - exists [mock_hit hash title q], [lit "search returned 1 results"].
    split; [reflexivity|]. right. split; [discriminate|reflexivity].
Qed.

(** X10: [fetch] leaves the log as it found it exactly when it rejects
    the identifier; otherwise it appends two records, the announcement
    before the confirmation, each ending in the identifier. *)
Theorem fetch_log (id : pystr) (l : log) :
  (log_after (fetch id l) = l <-> id = [])
  /\ (id <> [] ->
      log_after (fetch id l)
      = l ++ [lit "Fetching content for file ID: " ++ id;
              lit "Fetched file: " ++ id]).
Proof.
  split.
  - split.
    + intros E. destruct id as [|c id]; [reflexivity|].
      rewrite fetch_document in E by discriminate.
      unfold log_after in E. cbn [snd] in E.
      apply (f_equal (@length _)) in E.
      rewrite length_app in E. cbn [length] in E. lia.
    + intros ->. now rewrite fetch_empty.
  - intros Hid. now rewrite fetch_document.
Qed.

Lemma fetch_log_witness :
  (log_after (fetch (lit "doc1") [lit "earlier record"])
   = [lit "earlier record"] <-> lit "doc1" = [])
  /\ log_after (fetch (lit "doc1") [lit "earlier record"])
     = [lit "earlier record"]
       ++ [lit "Fetching content for file ID: " ++ lit "doc1";
           lit "Fetched file: " ++ lit "doc1"].
Proof.
  destruct (fetch_log (lit "doc1") [lit "earlier record"]) as [H1 H2].
  split; [exact H1|]. apply H2. vm_compute. discriminate.
Defined.

(** ** The entry point *)

Section MainFacts.

Variable Server : Type.
Variable create_server : script Server.
Variable run : Server -> pystr -> pystr -> Z -> script unit.

(** The record logged before the server runs. *)
Lemma starting_record :
  lit "Starting MCP server on " ++ lit "0.0.0.0" ++ lit ":"
  ++ str_int 8000 ++ lit " with " ++ lit "http" ++ lit " transport"
  = lit "Starting MCP server on 0.0.0.0:8000 with http transport".
Proof. reflexivity. Qed.

(** X11: the script ends without an exception exactly when the server
    was created and [run] then returned or was interrupted from the
    keyboard; [run] is given the transport ["http"], the host ["0.0.0.0"]
    and the port 8000, after the starting record was logged. *)
Theorem main_ends_normally_iff (l : log) :
  (exists l' : log, main Server create_server run l = (inl tt, l'))
  <-> (exists (server : Server) (l1 l3 : log),
         create_server l = (inl server, l1)
         /\ (run server (lit "http") (lit "0.0.0.0") 8000
               (l1 ++ [lit "Starting MCP server on 0.0.0.0:8000 with http transport"])
             = (inl tt, l3)
             \/ run server (lit "http") (lit "0.0.0.0") 8000
                  (l1 ++ [lit "Starting MCP server on 0.0.0.0:8000 with http transport"])
                = (inr KeyboardInterrupt, l3))).
Proof.
  unfold main. rewrite starting_record.
  destruct (create_server l) as [[server|t] l1].
  - destruct (run server (lit "http") (lit "0.0.0.0") 8000 _)
      as [[[]|[|e|e]] l3] eqn:R.
    + split; [|eauto]. intros _. exists server, l1, l3. auto.
    + split; [|eauto]. intros _. exists server, l1, l3. auto.
    + split.
      * intros [l' E]. discriminate E.
      * intros (s & l1' & l3' & [= <- <-] & [E|E]); rewrite R in E;
          discriminate E.
    + split.
      * intros [l' E]. discriminate E.
      * intros (s & l1' & l3' & [= <- <-] & [E|E]); rewrite R in E;
          discriminate E.
  - split.
    + intros [l' E]. discriminate E.
    + intros (s & l1' & l3' & E & _). discriminate E.
Qed.

(** X12: an exception that leaves the script is one the framework threw,
    unchanged: either [create_server] threw it and nothing more was
    logged, or [run] threw it and it is not [KeyboardInterrupt]; it is
    recorded as "Server error: ..." exactly when it is an [Exception]. *)
Theorem main_propagates (l l' : log) (t : thrown) :
  main Server create_server run l = (inr t, l') ->
  create_server l = (inr t, l')
  \/ (exists (server : Server) (l1 l3 : log),
        create_server l = (inl server, l1)
        /\ run server (lit "http") (lit "0.0.0.0") 8000
             (l1 ++ [lit "Starting MCP server on 0.0.0.0:8000 with http transport"])
           = (inr t, l3)
        /\ t <> KeyboardInterrupt
        /\ l' = match t with
                | Exception e => l3 ++ [lit "Server error: " ++ e]
                | _ => l3
                end).
Proof.
  unfold main. rewrite starting_record.
  destruct (create_server l) as [[server|t0] l1].
  - destruct (run server (lit "http") (lit "0.0.0.0") 8000 _)
      as [[[]|[|e|e]] l3] eqn:R; intros [= <- <-] || intros [=].
    + right. exists server, l1, l3. repeat split; [exact R|discriminate].
    + right. exists server, l1, l3. repeat split; [exact R|discriminate].
  - intros [= <- <-]. now left.
Qed.

End MainFacts.

Lemma main_propagates_witness :
  create_server_ok []
  = (inr (Exception (lit "bind failed")),
     [lit "Starting MCP server on 0.0.0.0:8000 with http transport";
      lit "Server error: bind failed"])
  \/ (exists (server : unit) (l1 l3 : log),
        create_server_ok [] = (inl server, l1)
        /\ run_bind_failure server (lit "http") (lit "0.0.0.0") 8000
             (l1 ++ [lit "Starting MCP server on 0.0.0.0:8000 with http transport"])
           = (inr (Exception (lit "bind failed")), l3)
        /\ Exception (lit "bind failed") <> KeyboardInterrupt
        /\ [lit "Starting MCP server on 0.0.0.0:8000 with http transport";
            lit "Server error: bind failed"]
           = l3 ++ [lit "Server error: " ++ lit "bind failed"]).
Proof.
  apply (main_propagates unit create_server_ok run_bind_failure []
           [lit "Starting MCP server on 0.0.0.0:8000 with http transport";
            lit "Server error: bind failed"]
           (Exception (lit "bind failed"))).
  vm_compute. reflexivity.
Defined.

(** ** The shape of the identifiers *)

Lemma digit_not_space (c : N) : is_digit c = true -> isspace c = false.
Proof.
  unfold is_digit, isspace. intros H.
  apply andb_true_iff in H as [H1 H2]. apply N.leb_le in H1, H2.
  repeat match goal with
         | |- context [(?a <=? ?b)%N] => destruct (N.leb_spec a b); try lia
         | |- context [(?a =? ?b)%N] => destruct (N.eqb_spec a b); try lia
         end.
Qed.

Lemma forallb_digit_not_space (s : pystr) :
  forallb is_digit s = true ->
  forallb (fun c => negb (isspace c)) s = true.
Proof.
  induction s as [|c s IH]; simpl; [reflexivity|].
  intros H. apply andb_true_iff in H as [Hc Hs].
  now rewrite (digit_not_space c Hc), IH.
Qed.

(** X13: the identifier of a hit is 8 to 11 code points long and holds
    no whitespace, so stripping leaves it as it is. *)
Theorem search_id_shape (hash : pystr -> Z) (title : pystr -> pystr)
    (q : pystr) (l : log) :
  strip q <> [] ->
  exists (hit : record) (i : pystr) (l' : log),
    search hash title q l = (Return {[ lit "results" := [hit] ]}, l')
    /\ hit !! lit "id" = Some i
    /\ (8 <= length i <= 11)%nat
    /\ forallb (fun c => negb (isspace c)) i = true.
Proof.
  intros Hq.
  assert (Hn : 0 <= hash q mod 10000 <= 9999).
  { pose proof (Z.mod_pos_bound (hash q) 10000). lia. }
  pose proof (str_int_small _ Hn) as Hs. unfold short_decimal in Hs.
  apply andb_true_iff in Hs as [Hs H4]. apply andb_true_iff in Hs as [Hd H1].
  apply Nat.leb_le in H1, H4.
  exists (mock_hit hash title q),
         (lit "mock@@@" ++ str_int (hash q mod 10000)).
  eexists.
  split; [now apply search_hit|]. split; [apply mock_hit_id|]. split.
  - rewrite length_app. change (length (lit "mock@@@")) with 7%nat. lia.
  - rewrite forallb_app. apply andb_true_iff. split; [reflexivity|].
    now apply forallb_digit_not_space.
Qed.

Lemma search_id_shape_witness :
  exists (hit : record) (i : pystr) (l' : log),
    search (salted_hash 0) ascii_title (lit "cats") []
    = (Return {[ lit "results" := [hit] ]}, l')
    /\ hit !! lit "id" = Some i
    /\ (8 <= length i <= 11)%nat
    /\ forallb (fun c => negb (isspace c)) i = true.
Proof.
  apply (search_id_shape (salted_hash 0) ascii_title (lit "cats") []).
  vm_compute. discriminate.
Defined.

Lemma search_across_interpreters_witness :
  response (search (salted_hash 0) ascii_title (lit "cats") [])
  = response (search (salted_hash 7) ascii_title (lit "cats") [])
  <-> salted_hash 0 (lit "cats") mod 10000
      = salted_hash 7 (lit "cats") mod 10000.
Proof.
  apply (search_across_interpreters (salted_hash 0) (salted_hash 7)
           ascii_title (lit "cats") [] []).
  vm_compute. discriminate.
Defined.
